(** * Battery Cell Analyzer: parameter derivation and aggregation

  A shallow embedding of [calculate_cell_parameters], of the style class
  and the progress fraction of [display_cell_result] and of the data path
  of [main] (the cells of the sidebar, the analysis, the rows of the
  table; src/app.py), with the properties of the derivation and
  aggregation logic proved over it.

  Numbers are Python floats, that is IEEE-754 binary64 values.  They are
  modelled by the Standard Library's [spec_float] at precision 53 and
  exponent bound 1024, so that every operation rounds exactly as the
  interpreter's does.  Strings are byte strings, dictionaries with a fixed
  set of keys are records, exceptions are values of a sum type, and the
  random generator is an explicit state threaded through the calls. *)

From Stdlib Require Import ZArith List String Ascii Bool Lia.
From Stdlib Require Import Floats.SpecFloat.
Import ListNotations.

Local Open Scope Z_scope.

(** ** Python floats *)

Module PyFloat.

Definition prec : Z := 53.
Definition emax : Z := 1024.

Definition float : Type := spec_float.

Definition fadd : float -> float -> float := SFadd prec emax.
Definition fsub : float -> float -> float := SFsub prec emax.
Definition fmul : float -> float -> float := SFmul prec emax.
Definition fdiv : float -> float -> float := SFdiv prec emax.

(** [x < y], [x <= y] and [x > y] on floats; all are false on a NaN. *)
Definition flt (x y : float) : bool := SFltb x y.
Definition fle (x y : float) : bool := SFleb x y.
Definition fgt (x y : float) : bool := flt y x.

Definition is_zero (x : float) : bool :=
  match x with S754_zero _ => true | _ => false end.

Definition is_nan (x : float) : bool :=
  match x with S754_nan => true | _ => false end.

(** Conversion of a Python int to a float, as done when an int meets a
    float in an arithmetic operation. *)
Definition of_int (n : Z) : float := binary_normalize prec emax n 0 false.

(** The float nearest to the decimal number [n / 10^d], with sign [s]: what
    the interpreter's string-to-float conversion returns for a decimal
    with [d] digits after the point.  [n] and [10^d] are exact as integers
    and the division rounds once, to nearest even. *)
Definition of_decimal (s : bool) (n d : positive) : float :=
  fdiv (S754_finite s n 0) (S754_finite false (Pos.pow 10 d) 0).

(** A float literal of the source, written [n / 10^d]: [lit 32 1] is 3.2. *)
Definition lit (n d : positive) : float := of_decimal false n d.

(** The literal [0.0]. *)
Definition zero : float := S754_zero false.

(** The integer nearest to [a / b] for [b > 0], ties to the even one. *)
Definition round_half_even (a b : Z) : Z :=
  let q := a / b in
  match (2 * (a mod b)) ?= b with
  | Lt => q
  | Gt => q + 1
  | Eq => if Z.even q then q else q + 1
  end.

(** The absolute value of [m * 2^e], scaled by [10^d] and rounded to the
    nearest integer, ties to even. *)
Definition scaled_digits (m : positive) (e : Z) (d : positive) : Z :=
  if 0 <=? e
  then Zpos m * 2 ^ e * Zpos (Pos.pow 10 d)
  else round_half_even (Zpos m * Zpos (Pos.pow 10 d)) (2 ^ (- e)).

(** [round(x, d)] for a float [x] and [d >= 1] digits: the exact value of
    [x] is rounded to [d] decimals, ties to even, and the decimal obtained
    is converted back to the nearest float.  Zeros, infinities and NaN are
    returned as they are, and a result that rounds to zero keeps the sign
    of [x]. *)
Definition py_round (x : float) (d : positive) : float :=
  match x with
  | S754_finite s m e =>
      match scaled_digits m e d with
      | Zpos n => of_decimal s n d
      | _ => S754_zero s
      end
  | _ => x
  end.

End PyFloat.

Import PyFloat.

(** ** Python strings *)

Module PyStr.

(** [c.upper()] for one character: the letters a to z move to A to Z, every
    other byte is kept.  A character outside ASCII is a sequence of bytes
    above 127, which this leaves alone; no such character has an upper-case
    form made of the letters L, F and P, so the comparison with ["LFP"]
    below is the one the interpreter makes. *)
Definition upper_char (c : ascii) : ascii :=
  let n := nat_of_ascii c in
  if ((97 <=? n) && (n <=? 122))%nat then ascii_of_nat (n - 32) else c.

Fixpoint upper (s : string) : string :=
  match s with
  | EmptyString => EmptyString
  | String c s' => String (upper_char c) (upper s')
  end.

(** Case folding the other way, used only to state what a case-insensitive
    match is. *)
Definition lower_char (c : ascii) : ascii :=
  let n := nat_of_ascii c in
  if ((65 <=? n) && (n <=? 90))%nat then ascii_of_nat (n + 32) else c.

(** [eq_nocase s t]: [s] and [t] have the same length and agree character
    by character once letters are folded to lower case. *)
Fixpoint eq_nocase (s t : string) : bool :=
  match s, t with
  | EmptyString, EmptyString => true
  | String a s', String b t' =>
      Ascii.eqb (lower_char a) (lower_char b) && eq_nocase s' t'
  | _, _ => false
  end.

End PyStr.

Import PyStr.

(** ** Exceptions, the random generator and the monad of the analysis *)

Inductive exn : Type :=
| ZeroDivisionError
| ValueError.

(** The state of the [random] module: [draws k] is the value the [k]-th call
  of [random.uniform(25, 40)] returns, [used] counts the calls made. *)
Record rng : Type := { draws : nat -> float; used : nat }.

Definition M (A : Type) : Type := rng -> exn + (A * rng).

Definition ret {A : Type} (a : A) : M A := fun g => inr (a, g).

Definition bind {A B : Type} (m : M A) (k : A -> M B) : M B :=
fun g => match m g with
         | inl e => inl e
         | inr (a, g') => k a g'
         end.

Definition raise {A : Type} (e : exn) : M A := fun _ => inl e.

Notation "x <- m ;; k" := (bind m (fun x => k))
(at level 61, m at next level, right associativity).

(** An operation that may raise but does not touch the generator. *)
Definition lift {A : Type} (r : exn + A) : M A :=
fun g => match r with inl e => inl e | inr a => inr (a, g) end.

(** [random.uniform(25, 40)]. *)
Definition uniform : M float :=
fun g => inr (draws g (used g), {| draws := draws g; used := S (used g) |}).

(** The contract of [random.uniform(25, 40)]: a finite float [N] with
  [25 <= N <= 40]. *)
Definition in_uniform_range (u : float) : bool :=
valid_binary prec emax u && fle (of_int 25) u && fle u (of_int 40).

(** [x / y] on floats raises on a zero divisor. *)
Definition truediv (x y : float) : exn + float :=
if is_zero y then inl ZeroDivisionError else inr (fdiv x y).

(** [sum(xs)]: the items are added from left to right, starting from 0,
    each addition rounding to the nearest float.  (From CPython 3.12 on the
    sum of floats carries a compensation term, which can change the last
    bit of a sum of three or more items; signs, NaN and sums of one or two
    items are the same.) *)
Definition py_sum (xs : list float) : float :=
fold_left fadd xs zero.

(** One step of [max]: keep [m] unless the next item [v] is greater. *)
Definition max_step (m v : float) : float := if fgt v m then v else m.

(** One step of [min]: keep [m] unless the next item [v] is smaller. *)
Definition min_step (m v : float) : float := if flt v m then v else m.

(** [max(xs)]: the first item, replaced by each later item that compares
    greater; raises on an empty sequence. *)
Definition py_max (xs : list float) : exn + float :=
  match xs with
  | [] => inl ValueError
  | x :: rest => inr (fold_left max_step rest x)
  end.

(** [max(a, b)] and [min(a, b)] on two floats. *)
Definition max2 (a b : float) : float := max_step a b.
Definition min2 (a b : float) : float := min_step a b.

(** ** The data of the analysis *)

(** The parameter bag [calculate_cell_parameters] returns. *)
Record params : Type := {
  voltage : float;
  current : float;
  temperature : float;
  capacity : float;
  max_voltage : float;
  min_voltage : float;
  voltage_range_percent : float
}.

(** An entry of [cells_data]: the keys ["id"], ["type"] and ["current"]. *)
Record cell : Type := {
  cell_id : Z;
  cell_type : string;
  cell_current : float
}.

(** An entry of [results]: the dictionary [{"id": .., "type": .., **params}].
    No key of the parameter bag is ["id"] or ["type"], so the merge keeps
    every key of [params] and overwrites nothing. *)
Record result : Type := {
  id : Z;
  type : string;
  bag : params
}.

(** The four summary metrics of [main]. *)
Record summary : Type := {
  total_capacity : float;
  avg_temperature : float;
  peak_voltage : float;
  cell_count : nat
}.

(** ** calculate_cell_parameters *)

(** The branch on the cell type: [(voltage, max_voltage, min_voltage)]. *)
Definition profile (cell_type : string) : float * float * float :=
  if String.eqb (upper cell_type) "LFP"
  then (lit 32 1, lit 40 1, lit 28 1)
  else (lit 36 1, lit 34 1, lit 32 1).

Definition calculate_cell_parameters (cell_type : string) (current : float)
  : M params :=
  let '(voltage, max_voltage, min_voltage) := profile cell_type in
  u <- uniform ;;
  let temperature := py_round u 1 in
  let capacity := py_round (fmul voltage current) 2 in
  voltage_range_percent <-
    (if fgt max_voltage min_voltage
     then q <- lift (truediv (fsub voltage min_voltage)
                             (fsub max_voltage min_voltage)) ;;
          ret (py_round (fmul q (of_int 100)) 1)
     else ret (lit 500 1)) ;;
  ret {| voltage := voltage;
         current := current;
         temperature := temperature;
         capacity := capacity;
         max_voltage := max_voltage;
         min_voltage := min_voltage;
         voltage_range_percent := voltage_range_percent |}.

(** ** display_cell_result: the fraction handed to the progress bar *)

Definition progress_value (p : params) : exn + float :=
  match truediv (voltage_range_percent p) (of_int 100) with
  | inl e => inl e
  | inr q => inr (max2 zero (min2 (lit 10 1) q))
  end.

(** ** main: the analysis *)

(** The loop over [cells_data]: one call of [calculate_cell_parameters] per
    cell, the merged dictionary appended to [results]. *)
Fixpoint for_cells (cells_data : list cell) (results : list result)
  : M (list result) :=
  match cells_data with
  | [] => ret results
  | c :: rest =>
      p <- calculate_cell_parameters (cell_type c) (cell_current c) ;;
      for_cells rest
        (results ++ [{| id := cell_id c; type := cell_type c; bag := p |}])
  end.

Definition compute_results (cells_data : list cell) : M (list result) :=
  for_cells cells_data [].

(** The summary metrics, in the order [main] computes them. *)
Definition aggregate (results : list result) : exn + summary :=
  let total_capacity := py_sum (map (fun r => capacity (bag r)) results) in
  match truediv (py_sum (map (fun r => temperature (bag r)) results))
                (of_int (Z.of_nat (List.length results))) with
  | inl e => inl e
  | inr q =>
      let avg_temperature := py_round q 1 in
      match py_max (map (fun r => voltage (bag r)) results) with
      | inl e => inl e
      | inr peak_voltage =>
          inr {| total_capacity := total_capacity;
                 avg_temperature := avg_temperature;
                 peak_voltage := peak_voltage;
                 cell_count := List.length results |}
      end
  end.

(** The analysis branch of [main]: derive every cell, then summarise. *)
Definition analyze (cells_data : list cell) : M (list result * summary) :=
  results <- compute_results cells_data ;;
  s <- lift (aggregate results) ;;
  ret (results, s).

(** ** Definitions used to state the properties *)

(** The generator after one more draw. *)
Definition advance (g : rng) : rng :=
  {| draws := draws g; used := S (used g) |}.

(** The value of [voltage_range_percent] for each branch of the cell type:
    33.3 for LFP, 200.0 otherwise. *)
Definition range_percent (cell_type : string) : float :=
  if eq_nocase cell_type "LFP" then lit 333 1 else lit 2000 1.

(** [has_sign s x]: [x] is a zero, an infinity or a finite number of sign
    [s], and not a NaN. *)
Definition has_sign (s : bool) (x : float) : Prop :=
  match x with
  | S754_zero s' | S754_infinity s' | S754_finite s' _ _ => s' = s
  | S754_nan => False
  end.

(** [nonpos x]: [x] is a zero or is negative. *)
Definition nonpos (x : float) : bool :=
  match x with
  | S754_zero _ => true
  | S754_infinity s | S754_finite s _ _ => s
  | S754_nan => false
  end.

(** [key x] places a float that is not a NaN in a lexicographic order of
    integer triples: class, then exponent, then mantissa. *)
Definition key (x : float) : Z * Z * Z :=
  match x with
  | S754_zero _ => (0, 0, 0)
  | S754_infinity false => (2, 0, 0)
  | S754_infinity true => (-2, 0, 0)
  | S754_finite false m e => (1, e, Zpos m)
  | S754_finite true m e => (-1, - e, Zneg m)
  | S754_nan => (0, 0, 0)
  end.

Definition lex_le (a b : Z * Z * Z) : Prop :=
  let '(a1, a2, a3) := a in
  let '(b1, b2, b3) := b in
  a1 < b1 \/ (a1 = b1 /\ (a2 < b2 \/ (a2 = b2 /\ a3 <= b3))).

Definition lex_lt (a b : Z * Z * Z) : Prop :=
  let '(a1, a2, a3) := a in
  let '(b1, b2, b3) := b in
  a1 < b1 \/ (a1 = b1 /\ (a2 < b2 \/ (a2 = b2 /\ a3 < b3))).

(** The check made on each of the 151 decimals from 25.0 to 40.0. *)
Definition temperature_ok (t : float) : bool :=
  valid_binary prec emax t && fle (lit 250 1) t && fle t (lit 400 1).

(** The parameter bag computed for a cell type, a current and the value [u]
    drawn for the temperature. *)
Definition bag_of (cell_type : string) (c u : float) : params :=
  {| voltage := fst (fst (profile cell_type));
     current := c;
     temperature := py_round u 1;
     capacity := py_round (fmul (fst (fst (profile cell_type))) c) 2;
     max_voltage := snd (fst (profile cell_type));
     min_voltage := snd (profile cell_type);
     voltage_range_percent := range_percent cell_type |}.

(** The results for the cells [cells_data] when the draws start at the
    [k]-th value of [d]. *)
Fixpoint results_from (d : nat -> float) (k : nat) (cells_data : list cell)
  : list result :=
  match cells_data with
  | [] => []
  | c :: rest =>
      {| id := cell_id c; type := cell_type c;
         bag := bag_of (cell_type c) (cell_current c) (d k) |}
      :: results_from d (S k) rest
  end.

(** A generator that returns [t] at every draw. *)
Definition constant_rng (t : float) : rng := {| draws := fun _ => t; used := 0 |}.

(** The two results of the specification's example. *)
Definition example_results : list result :=
  [ {| id := 1; type := "LFP"%string;
       bag := {| voltage := lit 32 1; current := of_int 2;
                 temperature := lit 300 1; capacity := lit 64 1;
                 max_voltage := lit 40 1; min_voltage := lit 28 1;
                 voltage_range_percent := lit 333 1 |} |};
    {| id := 2; type := "MNC"%string;
       bag := {| voltage := lit 36 1; current := of_int 1;
                 temperature := lit 280 1; capacity := lit 36 1;
                 max_voltage := lit 34 1; min_voltage := lit 32 1;
                 voltage_range_percent := lit 2000 1 |} |} ].

(** ** display_cell_result: the style class of the card *)

Definition css_class (cell_type : string) : string :=
  if String.eqb (upper cell_type) "MNC"%string then "mnc"%string
  else ""%string.

(** ** main: the cells configured in the sidebar *)

(** The loop [for i in range(num_cells)].  [selectbox i] and
    [number_input i] are the values the two widgets of cell [i] return. *)
Fixpoint sidebar_loop (selectbox : nat -> string) (number_input : nat -> float)
         (indices : list nat) (cells_data : list cell) : list cell :=
  match indices with
  | [] => cells_data
  | i :: rest =>
      sidebar_loop selectbox number_input rest
        (cells_data ++ [{| cell_id := Z.of_nat i + 1;
                           cell_type := selectbox i;
                           cell_current := number_input i |}])
  end.

Definition build_cells_data (selectbox : nat -> string)
           (number_input : nat -> float) (num_cells : nat) : list cell :=
  sidebar_loop selectbox number_input (seq 0 num_cells) [].

(** ** main: the rows of the data table *)

(** A row of [df_data], one field per column. *)
Record row : Type := {
  col_cell_id : Z;
  col_type : string;
  col_voltage : float;
  col_current : float;
  col_temperature : float;
  col_capacity : float;
  col_min_voltage : float;
  col_max_voltage : float
}.

Fixpoint table_loop (results : list result) (df_data : list row) : list row :=
  match results with
  | [] => df_data
  | r :: rest =>
      table_loop rest
        (df_data ++ [{| col_cell_id := id r;
                        col_type := type r;
                        col_voltage := voltage (bag r);
                        col_current := current (bag r);
                        col_temperature := temperature (bag r);
                        col_capacity := capacity (bag r);
                        col_min_voltage := min_voltage (bag r);
                        col_max_voltage := max_voltage (bag r) |}])
  end.

Definition build_df_data (results : list result) : list row :=
  table_loop results [].

(** ** Definitions used to state the further properties *)

(** The result a row of the table stands for: the columns as they are, and
    the range percentage, which the table leaves out, taken from the type. *)
Definition result_of_row (w : row) : result :=
  {| id := col_cell_id w;
     type := col_type w;
     bag := {| voltage := col_voltage w;
               current := col_current w;
               temperature := col_temperature w;
               capacity := col_capacity w;
               max_voltage := col_max_voltage w;
               min_voltage := col_min_voltage w;
               voltage_range_percent := range_percent (col_type w) |} |}.

(** Every cell of the list has a type that matches ["LFP"]. *)
Definition all_lfp (cells_data : list cell) : bool :=
  forallb (fun c => eq_nocase (cell_type c) "LFP"%string) cells_data.

(** Equality of two floats as data: same class, sign, mantissa and
    exponent. *)
Definition same_float (x y : float) : bool :=
  match x, y with
  | S754_zero a, S754_zero b => Bool.eqb a b
  | S754_infinity a, S754_infinity b => Bool.eqb a b
  | S754_nan, S754_nan => true
  | S754_finite a m e, S754_finite b n f =>
      Bool.eqb a b && Pos.eqb m n && Z.eqb e f
  | _, _ => false
  end.

(** The average of a single temperature [t], as [main] computes it. *)
Definition single_average (t : float) : float :=
  py_round (fdiv (py_sum [t]) (of_int 1)) 1.

(** A cell of type LFP drawing 2.0 A. *)
Definition example_cell : cell :=
  {| cell_id := 1; cell_type := "LFP"%string; cell_current := lit 20 1 |}.

(** * Properties *)

(** ** Case-insensitive match of the cell type *)

Section CaseFolding.

Local Open Scope string_scope.

Lemma upper_char_L (c : ascii) :
  Ascii.eqb (upper_char c) "L" = Ascii.eqb (lower_char c) (lower_char "L").
Proof.
  destruct c as [[] [] [] [] [] [] [] []]; reflexivity.
Qed.

Lemma upper_char_F (c : ascii) :
  Ascii.eqb (upper_char c) "F" = Ascii.eqb (lower_char c) (lower_char "F").
Proof.
  destruct c as [[] [] [] [] [] [] [] []]; reflexivity.
Qed.

Lemma upper_char_P (c : ascii) :
  Ascii.eqb (upper_char c) "P" = Ascii.eqb (lower_char c) (lower_char "P").
Proof.
  destruct c as [[] [] [] [] [] [] [] []]; reflexivity.
Qed.

(** The test of the source, [cell_type.upper() == "LFP"], is the
    case-insensitive match with ["LFP"]. *)
Lemma upper_is_LFP (s : string) :
  String.eqb (upper s) "LFP" = eq_nocase s "LFP".
Proof.
  destruct s as [|a [|b [|c [|d s]]]]; try reflexivity.
  - cbn [upper String.eqb eq_nocase].
    rewrite upper_char_L. destruct (Ascii.eqb _ _); reflexivity.
  - cbn [upper String.eqb eq_nocase].
    rewrite upper_char_L, upper_char_F.
    destruct (Ascii.eqb _ _); [|reflexivity].
    destruct (Ascii.eqb _ _); reflexivity.
  - cbn [upper String.eqb eq_nocase].
    rewrite upper_char_L, upper_char_F, upper_char_P. reflexivity.
  - cbn [upper String.eqb eq_nocase].
    rewrite upper_char_L, upper_char_F, upper_char_P. reflexivity.
Qed.

End CaseFolding.

(** ** Running calculate_cell_parameters *)

(** The call never raises, draws once, and returns this bag. *)
Lemma calculate_cell_parameters_run (cell_type : string) (c : float) (g : rng) :
  calculate_cell_parameters cell_type c g =
  inr (bag_of cell_type c (draws g (used g)), advance g).
Proof.
  unfold calculate_cell_parameters, bag_of, range_percent, profile.
  rewrite upper_is_LFP.
  destruct (eq_nocase cell_type "LFP"); reflexivity.
Qed.

Lemma profile_nocase (cell_type : string) :
  profile cell_type =
  if eq_nocase cell_type "LFP"
  then (lit 32 1, lit 40 1, lit 28 1)
  else (lit 36 1, lit 34 1, lit 32 1).
Proof.
  unfold profile. rewrite upper_is_LFP. reflexivity.
Qed.

(** ** Rounding to binary64: signs and positivity *)

Section Rounding.

Lemma digits2_pos_bounds (p : positive) :
  2 ^ (Zpos (digits2_pos p) - 1) <= Zpos p < 2 ^ Zpos (digits2_pos p).
Proof.
  induction p as [p IH | p IH |]; cbn [digits2_pos].
  - rewrite Pos2Z.inj_succ.
    replace (Z.succ (Zpos (digits2_pos p)) - 1)
      with (Z.succ (Zpos (digits2_pos p) - 1)) by lia.
    rewrite !Z.pow_succ_r by lia. lia.
  - rewrite Pos2Z.inj_succ.
    replace (Z.succ (Zpos (digits2_pos p)) - 1)
      with (Z.succ (Zpos (digits2_pos p) - 1)) by lia.
    rewrite !Z.pow_succ_r by lia. lia.
  - cbn. lia.
Qed.

Lemma shr_1_m (mrs : shr_record) :
  0 <= shr_m mrs -> shr_m (shr_1 mrs) = shr_m mrs / 2.
Proof.
  destruct mrs as [m r s]. cbn [shr_m]. intros Hm.
  rewrite <- Z.div2_div.
  destruct m as [|[p|p|]|p]; try reflexivity; lia.
Qed.

Lemma pow2_xO (n : positive) : 2 ^ Zpos n~0 = 2 ^ Zpos n * 2 ^ Zpos n.
Proof.
  replace (Zpos n~0) with (Zpos n + Zpos n) by lia.
  apply Z.pow_add_r; lia.
Qed.

Lemma pow2_xI (n : positive) : 2 ^ Zpos n~1 = 2 * (2 ^ Zpos n * 2 ^ Zpos n).
Proof.
  replace (Zpos n~1) with (Z.succ (Zpos n~0)) by lia.
  rewrite Z.pow_succ_r, pow2_xO by lia. reflexivity.
Qed.

Lemma iter_pos_shr_1_m (n : positive) :
  forall mrs, 0 <= shr_m mrs ->
              shr_m (iter_pos shr_1 n mrs) = shr_m mrs / 2 ^ Zpos n.
Proof.
  induction n as [n IH | n IH |]; intros mrs Hm; cbn [iter_pos].
  - assert (H1 : 0 <= shr_m (shr_1 mrs))
      by (rewrite shr_1_m by assumption; apply Z.div_pos; lia).
    assert (H2 : 0 <= shr_m (iter_pos shr_1 n (shr_1 mrs)))
      by (rewrite IH by assumption; apply Z.div_pos; lia).
    rewrite IH, IH, shr_1_m by assumption.
    rewrite !Z.div_div by lia.
    rewrite pow2_xI. reflexivity.
  - assert (H2 : 0 <= shr_m (iter_pos shr_1 n mrs))
      by (rewrite IH by assumption; apply Z.div_pos; lia).
    rewrite IH, IH by assumption.
    rewrite Z.div_div by lia.
    rewrite pow2_xO. reflexivity.
  - rewrite shr_1_m by assumption. reflexivity.
Qed.

Lemma shr_record_of_loc_m (m : Z) (l : location) :
  shr_m (shr_record_of_loc m l) = m.
Proof. destruct l as [|[]]; reflexivity. Qed.

(** One alignment step keeps a mantissa non-negative. *)
Lemma shr_fexp_nonneg (m e : Z) (l : location) :
  0 <= m -> 0 <= shr_m (fst (shr_fexp prec emax m e l)).
Proof.
  intros Hm. unfold shr_fexp, shr.
  destruct (fexp prec emax (Zdigits2 m + e) - e) as [|n|n]; cbn [fst];
    rewrite ?iter_pos_shr_1_m, shr_record_of_loc_m;
    rewrite ?shr_record_of_loc_m; try assumption.
  apply Z.div_pos; lia.
Qed.

(** One alignment step above the least exponent keeps a mantissa positive. *)
Lemma shr_fexp_pos (m e : Z) (l : location) :
  0 < m -> emin prec emax <= e ->
  0 < shr_m (fst (shr_fexp prec emax m e l)) /\
  emin prec emax <= snd (shr_fexp prec emax m e l).
Proof.
  intros Hm He. unfold shr_fexp, shr.
  destruct (fexp prec emax (Zdigits2 m + e) - e) as [|n|n] eqn:Hn;
    cbn [fst snd]; rewrite ?shr_record_of_loc_m; try (split; assumption).
  rewrite iter_pos_shr_1_m, shr_record_of_loc_m
    by (rewrite shr_record_of_loc_m; lia).
  destruct m as [|p|p]; try lia. cbn [Zdigits2] in Hn.
  pose proof (digits2_pos_bounds p) as [Hlo _].
  unfold fexp, emin, prec, emax in *.
  assert (Hd : Zpos n = Zpos (digits2_pos p) - 53) by lia.
  split; [|lia].
  apply Z.lt_le_trans with (2 ^ 52); [reflexivity|].
  apply Z.div_le_lower_bound; [lia|].
  rewrite Hd, <- Z.pow_add_r by lia.
  replace (Zpos (digits2_pos p) - 53 + 52) with (Zpos (digits2_pos p) - 1)
    by lia.
  exact Hlo.
Qed.

Lemma round_nearest_even_bounds (m : Z) (l : location) :
  m <= round_nearest_even m l <= m + 1.
Proof.
  unfold round_nearest_even.
  destruct l as [|[]]; try lia. destruct (Z.even m); lia.
Qed.

Lemma has_sign_nonpos (x : float) : has_sign true x -> nonpos x = true.
Proof. destruct x; cbn; intros; congruence || reflexivity || contradiction. Qed.

Lemma binary_round_aux_sign (s : bool) (m e : Z) (l : location) :
  0 <= m -> has_sign s (binary_round_aux prec emax s m e l).
Proof.
  intros Hm. unfold binary_round_aux.
  pose proof (shr_fexp_nonneg m e l Hm) as H1.
  destruct (shr_fexp prec emax m e l) as [mrs1 e1]. cbn [fst] in H1.
  pose proof (round_nearest_even_bounds (shr_m mrs1) (loc_of_shr_record mrs1))
    as H2.
  pose proof (shr_fexp_nonneg
                (round_nearest_even (shr_m mrs1) (loc_of_shr_record mrs1))
                e1 loc_Exact ltac:(lia)) as H3.
  destruct (shr_fexp prec emax _ e1 loc_Exact) as [mrs2 e2]. cbn [fst] in H3.
  destruct (shr_m mrs2) as [|p|p]; try lia; cbn; try reflexivity.
  destruct (e2 <=? _); reflexivity.
Qed.

Lemma binary_round_aux_nonzero (s : bool) (m e : Z) (l : location) :
  0 < m -> emin prec emax <= e ->
  is_zero (binary_round_aux prec emax s m e l) = false.
Proof.
  intros Hm He. unfold binary_round_aux.
  pose proof (shr_fexp_pos m e l Hm He) as [H1 H1e].
  destruct (shr_fexp prec emax m e l) as [mrs1 e1]. cbn [fst snd] in H1, H1e.
  pose proof (round_nearest_even_bounds (shr_m mrs1) (loc_of_shr_record mrs1))
    as H2.
  pose proof (shr_fexp_pos
                (round_nearest_even (shr_m mrs1) (loc_of_shr_record mrs1))
                e1 loc_Exact ltac:(lia) H1e) as [H3 _].
  destruct (shr_fexp prec emax _ e1 loc_Exact) as [mrs2 e2]. cbn [fst] in H3.
  destruct (shr_m mrs2) as [|p|p]; try lia.
  destruct (e2 <=? _); reflexivity.
Qed.

(** A non-zero int converts to a non-zero float. *)
Lemma of_int_nonzero (n : Z) : n <> 0 -> is_zero (of_int n) = false.
Proof.
  intros Hn. unfold of_int, binary_normalize, binary_round.
  assert (Halign : forall p,
             emin prec emax <=
             snd (shl_align p 0 (fexp prec emax (Zpos (digits2_pos p) + 0)))).
  { intros p. unfold shl_align.
    destruct (fexp prec emax (Zpos (digits2_pos p) + 0) - 0) eqn:E;
      cbn [snd]; unfold fexp, emin, prec, emax in *; lia. }
  destruct n as [|p|p]; [congruence| |];
    specialize (Halign p);
    destruct (shl_align p 0 _) as [mz ez]; cbn [snd] in Halign;
    apply binary_round_aux_nonzero; (lia || assumption).
Qed.

(** The product of a positive finite float and a float that is zero or
    negative is zero or negative. *)
Lemma fmul_nonpos (m : positive) (e : Z) (c : float) :
  nonpos c = true -> nonpos (fmul (S754_finite false m e) c) = true.
Proof.
  destruct c as [s|s| |s m' e']; cbn; try (intros; congruence || reflexivity).
  intros ->. cbn [xorb].
  apply has_sign_nonpos, binary_round_aux_sign. lia.
Qed.

Lemma fdiv_core_nonneg (m1 m2 : positive) (e1 e2 : Z) :
  0 <= fst (fst (SFdiv_core_binary prec emax (Zpos m1) e1 (Zpos m2) e2)).
Proof.
  unfold SFdiv_core_binary.
  set (s := _ - _ - Z.min _ _).
  set (m' := match s with Z0 => Zpos m1 | Zpos _ => Z.shiftl (Zpos m1) s
                     | Zneg _ => 0 end).
  assert (Hm' : 0 <= m').
  { subst m'. destruct s; try lia. apply Z.shiftl_nonneg. lia. }
  pose proof (Z.div_pos m' (Zpos m2) Hm' ltac:(lia)) as Hq.
  unfold Z.div in Hq.
  destruct (Z.div_eucl m' (Zpos m2)) as [q r]. exact Hq.
Qed.

Lemma of_decimal_sign (s : bool) (n d : positive) :
  has_sign s (of_decimal s n d).
Proof.
  unfold of_decimal, fdiv, SFdiv.
  pose proof (fdiv_core_nonneg n (10 ^ d) 0 0) as Hq.
  destruct (SFdiv_core_binary _ _ _ _ _ _) as [[mz ez] lz]. cbn [fst] in Hq.
  rewrite xorb_false_r. apply binary_round_aux_sign. exact Hq.
Qed.

(** Rounding keeps a float that is zero or negative so. *)
Lemma py_round_nonpos (x : float) (d : positive) :
  nonpos x = true -> nonpos (py_round x d) = true.
Proof.
  destruct x as [s|s| |s m e]; cbn [py_round]; try (intros; assumption).
  cbn [nonpos]. intros ->.
  destruct (scaled_digits m e d); try reflexivity.
  apply has_sign_nonpos, of_decimal_sign.
Qed.

Lemma py_round_zero (x : float) (d : positive) :
  is_zero x = true -> is_zero (py_round x d) = true.
Proof. destruct x; cbn; congruence. Qed.

Lemma fmul_zero (m : positive) (e : Z) (c : float) :
  is_zero c = true -> is_zero (fmul (S754_finite false m e) c) = true.
Proof. destruct c; cbn; congruence. Qed.

Lemma fle_zero_nonpos (x : float) : fle x zero = nonpos x.
Proof. destruct x as [s|[]| |[] m e]; reflexivity. Qed.

End Rounding.

(** ** The order of floats *)

Section FloatOrder.

Lemma compare_key (x y : float) :
  is_nan x = false -> is_nan y = false ->
  exists c, SFcompare x y = Some c /\
            (c = Lt <-> lex_lt (key x) (key y)) /\
            (c = Gt <-> lex_lt (key y) (key x)).
Proof.
  intros Hx Hy.
  destruct x as [sx|[]| |[] mx ex]; try discriminate;
    destruct y as [sy|[]| |[] my ey]; try discriminate;
    cbn [SFcompare key lex_lt];
    try (eexists; split; [reflexivity|]; split; split;
         intros; try discriminate; try reflexivity; lia).
  - change (Pos.compare_cont Eq mx my) with (Pos.compare mx my).
    destruct (Z.compare_spec ex ey); [destruct (Pos.compare_spec mx my)| |];
      cbn [CompOpp]; eexists; (split; [reflexivity|]); split; split;
      intros; try discriminate; try reflexivity; lia.
  - change (Pos.compare_cont Eq mx my) with (Pos.compare mx my).
    destruct (Z.compare_spec ex ey); [destruct (Pos.compare_spec mx my)| |];
      eexists; (split; [reflexivity|]); split; split;
      intros; try discriminate; try reflexivity; lia.
Qed.

Lemma flt_key (x y : float) :
  is_nan x = false -> is_nan y = false ->
  (flt x y = true <-> lex_lt (key x) (key y)).
Proof.
  intros Hx Hy. destruct (compare_key x y Hx Hy) as (c & Hc & HLt & _).
  unfold flt, SFltb. rewrite Hc. rewrite <- HLt.
  destruct c; split; congruence.
Qed.

Lemma fle_key (x y : float) :
  is_nan x = false -> is_nan y = false ->
  (fle x y = true <-> lex_le (key x) (key y)).
Proof.
  intros Hx Hy. destruct (compare_key x y Hx Hy) as (c & Hc & HLt & HGt).
  unfold fle, SFleb. rewrite Hc.
  assert (Hle : lex_le (key x) (key y) <-> ~ lex_lt (key y) (key x)).
  { unfold lex_le, lex_lt.
    destruct (key x) as [[a1 a2] a3], (key y) as [[b1 b2] b3]. lia. }
  rewrite Hle, <- HGt. destruct c; split; congruence.
Qed.

Lemma fle_refl (x : float) : is_nan x = false -> fle x x = true.
Proof.
  intros Hx. apply fle_key; try assumption.
  unfold lex_le. destruct (key x) as [[a1 a2] a3]. lia.
Qed.

Lemma fle_trans (x y z : float) :
  is_nan x = false -> is_nan y = false -> is_nan z = false ->
  fle x y = true -> fle y z = true -> fle x z = true.
Proof.
  intros Hx Hy Hz Hxy Hyz.
  apply fle_key in Hxy; try assumption.
  apply fle_key in Hyz; try assumption.
  apply fle_key; try assumption.
  unfold lex_le in *.
  destruct (key x) as [[a1 a2] a3], (key y) as [[b1 b2] b3],
    (key z) as [[c1 c2] c3]. lia.
Qed.

Lemma not_flt_fle (x y : float) :
  is_nan x = false -> is_nan y = false ->
  flt x y = false -> fle y x = true.
Proof.
  intros Hx Hy Hlt. apply fle_key; try assumption.
  assert (Hn : ~ lex_lt (key x) (key y)).
  { intros H. apply flt_key in H; try assumption. congruence. }
  unfold lex_le, lex_lt in *.
  destruct (key x) as [[a1 a2] a3], (key y) as [[b1 b2] b3]. lia.
Qed.

Lemma flt_fle (x y : float) :
  is_nan x = false -> is_nan y = false ->
  flt x y = true -> fle x y = true.
Proof.
  intros Hx Hy Hlt. apply fle_key; try assumption.
  apply flt_key in Hlt; try assumption.
  unfold lex_le, lex_lt in *.
  destruct (key x) as [[a1 a2] a3], (key y) as [[b1 b2] b3]. lia.
Qed.

End FloatOrder.

(** ** sum and max *)

Section Builtins.

Lemma max_step_nan (m v : float) :
  is_nan m = false -> is_nan v = false -> is_nan (max_step m v) = false.
Proof. unfold max_step. destruct (fgt v m); auto. Qed.

Lemma max_step_ge (m v : float) :
  is_nan m = false -> is_nan v = false ->
  fle m (max_step m v) = true /\ fle v (max_step m v) = true.
Proof.
  intros Hm Hv. unfold max_step, fgt.
  destruct (flt m v) eqn:E.
  - split; [apply flt_fle; assumption | apply fle_refl; assumption].
  - split; [apply fle_refl; assumption | apply not_flt_fle; assumption].
Qed.

Lemma fold_max_nan (rest : list float) :
  forall x, is_nan x = false -> Forall (fun v => is_nan v = false) rest ->
            is_nan (fold_left max_step rest x) = false.
Proof.
  induction rest as [|y rest IH]; intros x Hx Hrest; cbn [fold_left].
  - assumption.
  - inversion Hrest; subst. apply IH; [apply max_step_nan|]; assumption.
Qed.

Lemma fold_max_in (rest : list float) :
  forall x, In (fold_left max_step rest x) (x :: rest).
Proof.
  induction rest as [|y rest IH]; intros x; cbn [fold_left].
  - left. reflexivity.
  - destruct (IH (max_step x y)) as [H | H].
    + unfold max_step in H at 1. destruct (fgt y x).
      * right. left. exact H.
      * left. exact H.
    + right. right. exact H.
Qed.

Lemma fold_max_upper (rest : list float) :
  forall x, is_nan x = false -> Forall (fun v => is_nan v = false) rest ->
            forall v, In v (x :: rest) ->
                      fle v (fold_left max_step rest x) = true.
Proof.
  induction rest as [|y rest IH]; intros x Hx Hrest v Hv; cbn [fold_left].
  - destruct Hv as [<- | []]. apply fle_refl. assumption.
  - inversion Hrest as [|? ? Hy Hrest']; subst.
    pose proof (max_step_nan x y Hx Hy) as Hs.
    destruct (max_step_ge x y Hx Hy) as [Hxs Hys].
    pose proof (IH (max_step x y) Hs Hrest') as Hup.
    pose proof (fold_max_nan rest (max_step x y) Hs Hrest') as Hf.
    destruct Hv as [<- | [<- | Hv]].
    + apply fle_trans with (max_step x y); try assumption.
      apply Hup. left. reflexivity.
    + apply fle_trans with (max_step x y); try assumption.
      apply Hup. left. reflexivity.
    + apply Hup. right. exact Hv.
Qed.

End Builtins.

(** ** The temperature draw *)

Section Temperature.

Lemma round_half_even_bounds (a b lo hi : Z) :
  0 < b -> lo * b <= a -> a <= hi * b ->
  lo <= round_half_even a b <= hi.
Proof.
  intros Hb Hlo Hhi. unfold round_half_even.
  pose proof (Z.div_mod a b ltac:(lia)) as Hdm.
  pose proof (Z.mod_pos_bound a b Hb) as Hr.
  assert (Hq : lo <= a / b) by (apply Z.div_le_lower_bound; lia).
  assert (Hq' : a / b <= hi) by (apply Z.div_le_upper_bound; lia).
  assert (Htop : a / b = hi -> a mod b = 0) by nia.
  destruct (Z.compare_spec (2 * (a mod b)) b).
  - destruct (Z.even (a / b)); [lia|].
    destruct (Z.eq_dec (a / b) hi) as [E|E]; [specialize (Htop E)|]; lia.
  - lia.
  - destruct (Z.eq_dec (a / b) hi) as [E|E]; [specialize (Htop E)|]; lia.
Qed.

Lemma of_int_25 : of_int 25 = S754_finite false 7036874417766400 (-48).
Proof. vm_compute. reflexivity. Qed.

Lemma of_int_40 : of_int 40 = S754_finite false 5629499534213120 (-47).
Proof. vm_compute. reflexivity. Qed.

(** A draw within the contract is a positive normal float of exponent
    [-48] (values from 25 up to 32) or [-47] (values from 32 up to 40). *)
Lemma in_uniform_range_shape (u : float) :
  in_uniform_range u = true ->
  exists m e, u = S754_finite false m e /\
              ((e = -48 /\ 25 * 2 ^ 48 <= Zpos m < 2 ^ 53) \/
               (e = -47 /\ 2 ^ 52 <= Zpos m <= 40 * 2 ^ 47)).
Proof.
  unfold in_uniform_range. rewrite of_int_25, of_int_40.
  change (2 ^ 48) with 281474976710656.
  change (2 ^ 53) with 9007199254740992.
  change (2 ^ 52) with 4503599627370496.
  change (2 ^ 47) with 140737488355328.
  intros H. apply andb_prop in H as [H H40]. apply andb_prop in H as [Hv H25].
  destruct u as [s|s| |s m e]; try discriminate.
  - destruct s; discriminate.
  - destruct s; [discriminate|].
    exists m, e. split; [reflexivity|].
    cbn [valid_binary] in Hv. unfold bounded, canonical_mantissa in Hv.
    apply andb_prop in Hv as [Hc _]. apply Z.eqb_eq in Hc.
    pose proof (digits2_pos_bounds m) as Hd.
    apply fle_key in H25; [|reflexivity|reflexivity].
    apply fle_key in H40; [|reflexivity|reflexivity].
    cbn [key lex_le] in H25, H40.
    unfold fexp, emin, prec, emax in Hc.
    assert (He : e = -48 \/ e = -47) by lia.
    destruct He as [-> | ->].
    + left. split; [reflexivity|].
      assert (Zpos (digits2_pos m) = 53) as Hdig by lia.
      rewrite Hdig in Hd.
      change (2 ^ 53) with 9007199254740992 in Hd. lia.
    + right. split; [reflexivity|].
      assert (Zpos (digits2_pos m) = 53) as Hdig by lia.
      rewrite Hdig in Hd.
      change (2 ^ (53 - 1)) with 4503599627370496 in Hd. lia.
Qed.

Lemma decimals_25_to_40 :
  forallb (fun i => temperature_ok (of_decimal false (Pos.of_nat (250 + i)) 1))
          (seq 0 151) = true.
Proof. vm_compute. reflexivity. Qed.

Lemma decimal_in_range (k : Z) :
  250 <= k <= 400 ->
  temperature_ok (of_decimal false (Z.to_pos k) 1) = true.
Proof.
  intros Hk.
  pose proof (proj1 (forallb_forall _ _) decimals_25_to_40
                (Z.to_nat (k - 250))) as H.
  cbv beta in H.
  replace (Pos.of_nat (250 + Z.to_nat (k - 250))) with (Z.to_pos k) in H
    by lia.
  apply H. apply in_seq. lia.
Qed.

(** Rounding a draw within the contract to one decimal gives one of the
    decimals 25.0, 25.1, ..., 40.0. *)
Lemma py_round_uniform (u : float) :
  in_uniform_range u = true ->
  exists k, 250 <= Zpos k <= 400 /\ py_round u 1 = of_decimal false k 1.
Proof.
  intros Hu.
  destruct (in_uniform_range_shape u Hu) as (m & e & -> & Hshape).
  cbn [py_round]. unfold scaled_digits.
  change (Z.pos (10 ^ 1)) with 10.
  assert (Hn : 250 <= (if 0 <=? e
                       then Zpos m * 2 ^ e * 10
                       else round_half_even (Zpos m * 10) (2 ^ (- e))) <= 400).
  { destruct Hshape as [[-> Hm] | [-> Hm]]; cbn [Z.leb Z.compare Z.opp];
      apply round_half_even_bounds.
    - reflexivity.
    - change (2 ^ 48) with 281474976710656 in *. lia.
    - change (2 ^ 48) with 281474976710656 in *.
      change (2 ^ 53) with 9007199254740992 in *. lia.
    - reflexivity.
    - change (2 ^ 47) with 140737488355328 in *.
      change (2 ^ 52) with 4503599627370496 in *. lia.
    - change (2 ^ 47) with 140737488355328 in *. lia. }
  destruct (if 0 <=? e then _ else _) as [|k|k]; try lia.
  exists k. split; [assumption | reflexivity].
Qed.

End Temperature.

(** ** The loop over the cells *)

Section Loop.

Lemma for_cells_run (cells_data : list cell) :
  forall (results : list result) (g : rng),
    for_cells cells_data results g =
    inr (results ++ results_from (draws g) (used g) cells_data,
         {| draws := draws g;
            used := (used g + List.length cells_data)%nat |}).
Proof.
  induction cells_data as [|c rest IH]; intros results g; cbn [for_cells].
  - unfold ret. cbn [results_from List.length]. rewrite app_nil_r, Nat.add_0_r.
    destruct g; reflexivity.
  - unfold bind. rewrite calculate_cell_parameters_run.
    rewrite IH. unfold advance. cbn [draws used results_from List.length].
    rewrite <- app_assoc. cbn [app].
    rewrite Nat.add_succ_r. reflexivity.
Qed.

Lemma results_from_length (d : nat -> float) (cells_data : list cell) :
  forall k, List.length (results_from d k cells_data) = List.length cells_data.
Proof.
  induction cells_data as [|c rest IH]; intros k; cbn; [|rewrite IH];
    reflexivity.
Qed.

Lemma results_from_nth (d : nat -> float) (cells_data : list cell) :
  forall k i c,
    nth_error cells_data i = Some c ->
    nth_error (results_from d k cells_data) i =
    Some {| id := cell_id c; type := cell_type c;
            bag := bag_of (cell_type c) (cell_current c) (d (k + i)%nat) |}.
Proof.
  induction cells_data as [|c0 rest IH]; intros k i c Hi.
  - destruct i; discriminate.
  - destruct i as [|i]; cbn [nth_error results_from] in *.
    + injection Hi as ->. rewrite Nat.add_0_r. reflexivity.
    + rewrite (IH (S k) i c Hi). rewrite Nat.add_succ_r. reflexivity.
Qed.

End Loop.

(** ** The summary *)

Section Summary.

Lemma aggregate_run (r : result) (rest : list result) :
  aggregate (r :: rest) =
  inr {| total_capacity :=
           py_sum (map (fun r => capacity (bag r)) (r :: rest));
         avg_temperature :=
           py_round
             (fdiv (py_sum (map (fun r => temperature (bag r)) (r :: rest)))
                   (of_int (Z.of_nat (List.length (r :: rest))))) 1;
         peak_voltage :=
           fold_left max_step (map (fun r => voltage (bag r)) rest)
                     (voltage (bag r));
         cell_count := List.length (r :: rest) |}.
Proof.
  unfold aggregate, truediv.
  rewrite of_int_nonzero by (cbn [List.length]; lia).
  reflexivity.
Qed.

End Summary.

(** * The claims *)

Section Claims.

Local Open Scope string_scope.

Lemma nominal_positive (cell_type : string) :
  exists m e, fst (fst (profile cell_type)) = S754_finite false m e.
Proof.
  rewrite profile_nocase.
  destruct (eq_nocase cell_type "LFP"); cbn [fst]; vm_compute; eauto.
Qed.

(** C1.  For every current [c > 0] the capacity returned for a cell is
    [round(nominal * c, 2)], where the nominal voltage is 3.2 when the type
    matches ["LFP"] without regard to case and 3.6 otherwise. *)
Theorem capacity_is_rounded_product (cell_type : string) (c : float) (g : rng) :
  flt zero c = true ->
  exists p g',
    calculate_cell_parameters cell_type c g = inr (p, g') /\
    capacity p =
    py_round (fmul (if eq_nocase cell_type "LFP" then lit 32 1 else lit 36 1)
                   c) 2.
Proof.
  intros _. rewrite calculate_cell_parameters_run.
  eexists _, _. split; [reflexivity|].
  unfold bag_of. cbn [capacity]. rewrite profile_nocase.
  destruct (eq_nocase cell_type "LFP"); reflexivity.
Qed.

Lemma capacity_is_rounded_product_witness :
  flt zero (lit 20 1) = true /\
  exists p g',
    calculate_cell_parameters "LFP" (lit 20 1) (constant_rng (lit 313 1)) =
    inr (p, g') /\
    capacity p =
    py_round (fmul (if eq_nocase "LFP" "LFP" then lit 32 1 else lit 36 1)
                   (lit 20 1)) 2.
Proof.
  split; [reflexivity|].
  apply (capacity_is_rounded_product "LFP" (lit 20 1)). reflexivity.
Defined.

(** The capacities of the end-to-end scenario: 6.4, 5.4 and 9.6. *)
Example capacities_of_scenario :
  capacity (bag_of "LFP" (lit 20 1) (lit 313 1)) = lit 64 1 /\
  capacity (bag_of "MNC" (lit 15 1) (lit 313 1)) = lit 54 1 /\
  capacity (bag_of "LFP" (lit 30 1) (lit 313 1)) = lit 96 1.
Proof. vm_compute. repeat split. Qed.

(** C2.  On a non-empty list of results the summary is returned:
    the total capacity is the plain sum of the capacities, the average
    temperature is the sum of the temperatures divided by the length and
    rounded to one decimal, the peak voltage is a voltage of the list that
    no voltage of the list exceeds, and the count is the length. *)
Theorem aggregate_nonempty (results : list result) :
  results <> [] ->
  Forall (fun r => is_nan (voltage (bag r)) = false) results ->
  exists s,
    aggregate results = inr s /\
    total_capacity s = py_sum (map (fun r => capacity (bag r)) results) /\
    avg_temperature s =
    py_round (fdiv (py_sum (map (fun r => temperature (bag r)) results))
                   (of_int (Z.of_nat (List.length results)))) 1 /\
    In (peak_voltage s) (map (fun r => voltage (bag r)) results) /\
    (forall r, In r results ->
               fle (voltage (bag r)) (peak_voltage s) = true) /\
    cell_count s = List.length results.
Proof.
  intros Hne Hnan. destruct results as [|r rest]; [congruence|].
  rewrite aggregate_run. eexists. split; [reflexivity|].
  cbn [total_capacity avg_temperature peak_voltage cell_count].
  repeat split.
  - cbn [map]. apply fold_max_in.
  - intros r' Hr'. inversion Hnan as [|? ? Hr Hrest]; subst.
    apply fold_max_upper.
    + exact Hr.
    + apply Forall_map. exact Hrest.
    + apply (in_map (fun r => voltage (bag r))) in Hr'. exact Hr'.
Qed.

Lemma aggregate_nonempty_witness :
  example_results <> [] /\
  Forall (fun r => is_nan (voltage (bag r)) = false) example_results /\
  exists s,
    aggregate example_results = inr s /\
    total_capacity s =
    py_sum (map (fun r => capacity (bag r)) example_results) /\
    avg_temperature s =
    py_round (fdiv (py_sum (map (fun r => temperature (bag r))
                                example_results))
                   (of_int (Z.of_nat (List.length example_results)))) 1 /\
    In (peak_voltage s) (map (fun r => voltage (bag r)) example_results) /\
    (forall r, In r example_results ->
               fle (voltage (bag r)) (peak_voltage s) = true) /\
    cell_count s = List.length example_results.
Proof.
  assert (Hne : example_results <> []) by discriminate.
  assert (Hnan : Forall (fun r => is_nan (voltage (bag r)) = false)
                        example_results)
    by (repeat constructor).
  split; [exact Hne|]. split; [exact Hnan|].
  apply (aggregate_nonempty example_results Hne Hnan).
Defined.

(** The summary of the specification's example: 10.0, 29.0, 3.6 and 2. *)
Example aggregate_example :
  aggregate example_results =
  inr {| total_capacity := lit 100 1; avg_temperature := lit 290 1;
         peak_voltage := lit 36 1; cell_count := 2 |}.
Proof. vm_compute. reflexivity. Qed.

(** C3.  On the empty list the summary fails: the division by the length
    raises, nothing is returned; and the empty list is the only input on
    which the summary raises. *)
Theorem aggregate_empty_fails :
  aggregate [] = inl ZeroDivisionError /\
  (forall s, aggregate [] <> inr s) /\
  (forall results, (exists e, aggregate results = inl e) <-> results = []).
Proof.
  assert (H0 : aggregate [] = inl ZeroDivisionError) by reflexivity.
  split; [exact H0|]. split.
  - intros s. rewrite H0. discriminate.
  - intros results. split.
    + intros [e He]. destruct results as [|r rest]; [reflexivity|].
      rewrite aggregate_run in He. discriminate.
    + intros ->. exists ZeroDivisionError. exact H0.
Qed.

(** C4.  The profile is chosen by a case-insensitive match with ["LFP"]:
    a matching type gets (3.2, 4.0, 2.8), every other string gets
    (3.6, 3.4, 3.2), and the call returns in both cases. *)
Theorem profile_by_case_insensitive_match
        (cell_type : string) (c : float) (g : rng) :
  exists p g',
    calculate_cell_parameters cell_type c g = inr (p, g') /\
    (voltage p, max_voltage p, min_voltage p) =
    if eq_nocase cell_type "LFP"
    then (lit 32 1, lit 40 1, lit 28 1)
    else (lit 36 1, lit 34 1, lit 32 1).
Proof.
  rewrite calculate_cell_parameters_run.
  eexists _, _. split; [reflexivity|].
  unfold bag_of. cbn [voltage max_voltage min_voltage].
  rewrite profile_nocase.
  destruct (eq_nocase cell_type "LFP"); reflexivity.
Qed.

(** Tags in any case are LFP; an unknown or empty tag is treated as MNC. *)
Example profile_examples :
  profile "lfp" = profile "LFP" /\ profile "Lfp" = profile "LFP" /\
  profile "" = profile "MNC" /\ profile "NMC" = profile "MNC" /\
  profile "LFP " = profile "MNC".
Proof. vm_compute. repeat split. Qed.

End Claims.

Section ClaimsRange.

Local Open Scope string_scope.

(** C5, as the code has it.  The range percentage follows the guarded
    formula; it is 33.3 for an LFP cell and 200.0 for every other cell,
    since 3.4 > 3.2 sends the MNC profile through the formula and not
    through the fallback. *)
Theorem range_percent_by_formula (cell_type : string) (c : float) (g : rng) :
  exists p g',
    calculate_cell_parameters cell_type c g = inr (p, g') /\
    voltage_range_percent p =
    (if fgt (max_voltage p) (min_voltage p)
     then py_round (fmul (fdiv (fsub (voltage p) (min_voltage p))
                               (fsub (max_voltage p) (min_voltage p)))
                         (of_int 100)) 1
     else lit 500 1) /\
    voltage_range_percent p =
    (if eq_nocase cell_type "LFP" then lit 333 1 else lit 2000 1).
Proof.
  rewrite calculate_cell_parameters_run.
  eexists _, _. split; [reflexivity|].
  unfold bag_of, range_percent.
  cbn [voltage max_voltage min_voltage voltage_range_percent].
  rewrite profile_nocase.
  destruct (eq_nocase cell_type "LFP"); cbn [fst snd]; split;
    vm_compute; reflexivity.
Qed.

(** An MNC cell does not get the fallback 50.0: its bounds satisfy
    [max_voltage > min_voltage] and its percentage is 200.0. *)
Lemma mnc_range_percent_is_not_fallback :
  exists p g',
    calculate_cell_parameters "MNC" (lit 15 1) (constant_rng (lit 313 1)) =
    inr (p, g') /\
    fgt (max_voltage p) (min_voltage p) = true /\
    voltage_range_percent p = lit 2000 1 /\
    voltage_range_percent p <> lit 500 1.
Proof.
  rewrite calculate_cell_parameters_run.
  eexists _, _. split; [reflexivity|].
  vm_compute. repeat split. discriminate.
Qed.

(** C6.  When the draw respects the contract of [random.uniform(25, 40)],
    the temperature of the result is one of the decimals 25.0, 25.1, ...,
    40.0: a float within [25.0, 40.0] that is the nearest to a number with
    one decimal. *)
Theorem temperature_in_range (cell_type : string) (c : float) (g : rng) :
  in_uniform_range (draws g (used g)) = true ->
  exists p g',
    calculate_cell_parameters cell_type c g = inr (p, g') /\
    fle (lit 250 1) (temperature p) = true /\
    fle (temperature p) (lit 400 1) = true /\
    valid_binary prec emax (temperature p) = true /\
    exists k, 250 <= Zpos k <= 400 /\ temperature p = of_decimal false k 1.
Proof.
  intros Hu. rewrite calculate_cell_parameters_run.
  eexists _, _. split; [reflexivity|].
  unfold bag_of. cbn [temperature].
  destruct (py_round_uniform _ Hu) as (k & Hk & ->).
  pose proof (decimal_in_range (Zpos k) Hk) as Hok.
  cbn [Z.to_pos] in Hok. unfold temperature_ok in Hok.
  apply andb_prop in Hok as [Hok H40]. apply andb_prop in Hok as [Hv H25].
  repeat split; try assumption.
  exists k. split; [assumption | reflexivity].
Qed.

Lemma temperature_in_range_witness :
  in_uniform_range (draws (constant_rng (lit 3127 2))
                          (used (constant_rng (lit 3127 2)))) = true /\
  exists p g',
    calculate_cell_parameters "LFP" (lit 20 1) (constant_rng (lit 3127 2)) =
    inr (p, g') /\
    fle (lit 250 1) (temperature p) = true /\
    fle (temperature p) (lit 400 1) = true /\
    valid_binary prec emax (temperature p) = true /\
    exists k, 250 <= Zpos k <= 400 /\ temperature p = of_decimal false k 1.
Proof.
  split; [reflexivity|].
  apply (temperature_in_range "LFP" (lit 20 1) (constant_rng (lit 3127 2))).
  reflexivity.
Defined.

(** The bounds of the contract are reached: 25.0 and 40.0 round to
    themselves, and 31.27 rounds to 31.3. *)
Example temperature_examples :
  py_round (of_int 25) 1 = lit 250 1 /\
  py_round (of_int 40) 1 = lit 400 1 /\
  py_round (lit 3127 2) 1 = lit 313 1.
Proof. vm_compute. repeat split. Qed.

(** C7.  Two calls with the same type and current agree on every field
    but the temperature, whatever the generator returns; and the
    temperatures of two such calls can differ. *)
Theorem only_temperature_depends_on_draw :
  (forall (cell_type : string) (c : float) (g1 g2 : rng),
      exists p1 g1' p2 g2',
        calculate_cell_parameters cell_type c g1 = inr (p1, g1') /\
        calculate_cell_parameters cell_type c g2 = inr (p2, g2') /\
        voltage p1 = voltage p2 /\
        current p1 = current p2 /\
        capacity p1 = capacity p2 /\
        max_voltage p1 = max_voltage p2 /\
        min_voltage p1 = min_voltage p2 /\
        voltage_range_percent p1 = voltage_range_percent p2) /\
  (exists (cell_type : string) (c : float) (g1 g2 : rng) p1 g1' p2 g2',
      calculate_cell_parameters cell_type c g1 = inr (p1, g1') /\
      calculate_cell_parameters cell_type c g2 = inr (p2, g2') /\
      temperature p1 <> temperature p2).
Proof.
  split.
  - intros cell_type c g1 g2. rewrite !calculate_cell_parameters_run.
    eexists _, _, _, _. split; [reflexivity|]. split; [reflexivity|].
    repeat split.
  - exists "LFP", (lit 20 1), (constant_rng (lit 300 1)),
      (constant_rng (lit 280 1)).
    rewrite !calculate_cell_parameters_run.
    eexists _, _, _, _. split; [reflexivity|]. split; [reflexivity|].
    vm_compute. discriminate.
Qed.

(** C8.  The loop returns one result per cell, in the order of the cells:
    the generator has been drawn from once per cell, and the [i]-th result
    carries the id and the type of the [i]-th cell together with the bag
    the call for that cell returns at the [i]-th draw, whose current is
    the cell's. *)
Theorem results_follow_cells (cells_data : list cell) (g : rng) :
  exists results g',
    compute_results cells_data g = inr (results, g') /\
    List.length results = List.length cells_data /\
    draws g' = draws g /\
    used g' = (used g + List.length cells_data)%nat /\
    forall i c,
      nth_error cells_data i = Some c ->
      exists r,
        nth_error results i = Some r /\
        id r = cell_id c /\
        type r = cell_type c /\
        current (bag r) = cell_current c /\
        calculate_cell_parameters (cell_type c) (cell_current c)
          {| draws := draws g; used := (used g + i)%nat |} =
        inr (bag r, {| draws := draws g; used := S (used g + i) |}).
Proof.
  unfold compute_results. rewrite for_cells_run. cbn [app].
  eexists _, _. split; [reflexivity|].
  split; [apply results_from_length|].
  split; [reflexivity|]. split; [reflexivity|].
  intros i c Hi. eexists. split; [apply results_from_nth; exact Hi|].
  cbn [id type bag]. repeat split.
  rewrite calculate_cell_parameters_run. reflexivity.
Qed.

(** The ids of the results are the ids of the cells, in the same order. *)
Example results_follow_cells_example :
  match compute_results
          [ {| cell_id := 1; cell_type := "LFP"; cell_current := lit 20 1 |};
            {| cell_id := 2; cell_type := "MNC"; cell_current := lit 15 1 |};
            {| cell_id := 3; cell_type := "LFP"; cell_current := lit 30 1 |} ]
          (constant_rng (lit 313 1)) with
  | inr (results, g') =>
      map id results = [1; 2; 3] /\
      map (fun r => capacity (bag r)) results =
      [lit 64 1; lit 54 1; lit 96 1] /\
      used g' = 3%nat
  | inl _ => False
  end.
Proof. vm_compute. repeat split. Qed.

End ClaimsRange.

Section ClaimsBounds.

Local Open Scope string_scope.

(** C9, as the code has it.  The range percentage of a result is 33.3 or
    200.0 and is never below 0.  For an LFP cell it lies within [0, 100]
    and the clamp of the display leaves the fraction as it is; for every
    other cell it exceeds 100 and the clamp is what brings the fraction
    down to 1.0. *)
Theorem range_percent_and_clamp (cell_type : string) (c : float) (g : rng) :
  exists p g',
    calculate_cell_parameters cell_type c g = inr (p, g') /\
    fle zero (voltage_range_percent p) = true /\
    (if eq_nocase cell_type "LFP"
     then voltage_range_percent p = lit 333 1 /\
          fle (voltage_range_percent p) (of_int 100) = true /\
          progress_value p =
          inr (fdiv (voltage_range_percent p) (of_int 100))
     else voltage_range_percent p = lit 2000 1 /\
          fle (voltage_range_percent p) (of_int 100) = false /\
          progress_value p = inr (lit 10 1) /\
          progress_value p <>
          inr (fdiv (voltage_range_percent p) (of_int 100))).
Proof.
  rewrite calculate_cell_parameters_run.
  eexists _, _. split; [reflexivity|].
  unfold progress_value, bag_of, range_percent.
  cbn [voltage_range_percent].
  destruct (eq_nocase cell_type "LFP"); vm_compute; repeat split;
    discriminate.
Qed.

(** The percentage of an MNC cell is outside [0, 100], and the clamp of
    the display changes the fraction computed from it. *)
Lemma mnc_range_percent_exceeds_100 :
  exists p g',
    calculate_cell_parameters "MNC" (lit 15 1) (constant_rng (lit 313 1)) =
    inr (p, g') /\
    fle (voltage_range_percent p) (of_int 100) = false /\
    voltage_range_percent p <> lit 333 1 /\
    voltage_range_percent p <> lit 500 1 /\
    progress_value p <> inr (fdiv (voltage_range_percent p) (of_int 100)).
Proof.
  rewrite calculate_cell_parameters_run.
  eexists _, _. split; [reflexivity|].
  vm_compute. repeat split; discriminate.
Qed.

(** C10.  The call returns for every type and every current, whatever its
    sign and also for an infinity or a NaN; the capacity is
    [round(voltage * current, 2)], it is a zero when the current is a zero,
    and it is zero or negative when the current is zero or negative. *)
Theorem derive_total (cell_type : string) (c : float) (g : rng) :
  exists p g',
    calculate_cell_parameters cell_type c g = inr (p, g') /\
    capacity p = py_round (fmul (voltage p) c) 2 /\
    (is_zero c = true -> is_zero (capacity p) = true) /\
    (fle c zero = true -> fle (capacity p) zero = true).
Proof.
  rewrite calculate_cell_parameters_run.
  eexists _, _. split; [reflexivity|].
  unfold bag_of. cbn [capacity voltage].
  destruct (nominal_positive cell_type) as (m & e & ->).
  split; [reflexivity|]. split.
  - intros Hz. apply py_round_zero, fmul_zero. exact Hz.
  - rewrite !fle_zero_nonpos. intros Hc.
    apply py_round_nonpos, fmul_nonpos. exact Hc.
Qed.

(** Zero and negative currents: 0.0 gives 0.0, -2.0 gives -6.4 for LFP, and
    a current as small as -0.001 gives the negative zero. *)
Example capacity_of_nonpositive_currents :
  capacity (bag_of "LFP" zero (lit 313 1)) = zero /\
  capacity (bag_of "LFP" (of_decimal true 20 1) (lit 313 1)) =
  of_decimal true 64 1 /\
  capacity (bag_of "LFP" (of_decimal true 1 3) (lit 313 1)) = S754_zero true.
Proof. vm_compute. repeat split. Qed.

End ClaimsBounds.

(** * Further properties of the code *)

(** ** The clamp of the progress bar *)

Section ProgressBar.

Lemma flt_not_nan (x y : float) :
  flt x y = true -> is_nan x = false /\ is_nan y = false.
Proof.
  destruct x, y; try discriminate; intros _; split; reflexivity.
Qed.

Lemma one_is_positive : flt zero (lit 10 1) = true.
Proof. vm_compute. reflexivity. Qed.

Lemma zero_le_one : fle zero (lit 10 1) = true.
Proof. vm_compute. reflexivity. Qed.

Lemma one_le_one : fle (lit 10 1) (lit 10 1) = true.
Proof. vm_compute. reflexivity. Qed.

(** The clamp [max(0.0, min(1.0, q))] lands in [0, 1] for every float [q],
    a NaN included. *)
Lemma clamp_in_unit_interval (q : float) :
  fle zero (max2 zero (min2 (lit 10 1) q)) = true /\
  fle (max2 zero (min2 (lit 10 1) q)) (lit 10 1) = true.
Proof.
  unfold max2, min2, max_step, min_step, fgt.
  destruct (flt q (lit 10 1)) eqn:E1.
  - destruct (flt_not_nan _ _ E1) as [Hq H1].
    destruct (flt zero q) eqn:E2.
    + split; apply flt_fle; (assumption || reflexivity).
    + split; [reflexivity | exact zero_le_one].
  - rewrite one_is_positive. split; [exact zero_le_one | exact one_le_one].
Qed.

(** X2.  The fraction handed to [st.progress] is computed for every parameter
    bag, whatever its percentage, and lies within [0.0, 1.0]. *)
Theorem progress_value_in_unit_interval (p : params) :
  exists f,
    progress_value p = inr f /\
    fle zero f = true /\ fle f (lit 10 1) = true.
Proof.
  unfold progress_value, truediv.
  rewrite of_int_nonzero by lia.
  eexists. split; [reflexivity|]. apply clamp_in_unit_interval.
Qed.

End ProgressBar.

(** ** The style class of a card and the profile of its cell *)

Section CardStyle.

Local Open Scope string_scope.

Lemma upper_char_M (c : ascii) :
  Ascii.eqb (upper_char c) "M" = Ascii.eqb (lower_char c) (lower_char "M").
Proof.
  destruct c as [[] [] [] [] [] [] [] []]; reflexivity.
Qed.

Lemma upper_char_N (c : ascii) :
  Ascii.eqb (upper_char c) "N" = Ascii.eqb (lower_char c) (lower_char "N").
Proof.
  destruct c as [[] [] [] [] [] [] [] []]; reflexivity.
Qed.

Lemma upper_char_C (c : ascii) :
  Ascii.eqb (upper_char c) "C" = Ascii.eqb (lower_char c) (lower_char "C").
Proof.
  destruct c as [[] [] [] [] [] [] [] []]; reflexivity.
Qed.

(** The test of the display, [cell_type.upper() == "MNC"], is the
    case-insensitive match with ["MNC"]. *)
Lemma upper_is_MNC (s : string) :
  String.eqb (upper s) "MNC" = eq_nocase s "MNC".
Proof.
  destruct s as [|a [|b [|c [|d s]]]]; try reflexivity;
    cbn [upper String.eqb eq_nocase];
    rewrite ?upper_char_M, ?upper_char_N, ?upper_char_C;
    repeat (destruct (Ascii.eqb _ _); try reflexivity).
Qed.

(** No string matches both ["MNC"] and ["LFP"]. *)
Lemma nocase_MNC_not_LFP (s : string) :
  eq_nocase s "MNC" = true -> eq_nocase s "LFP" = false.
Proof.
  destruct s as [|a s]; [discriminate|].
  cbn [eq_nocase]. intros H. apply andb_prop in H as [Ha _].
  apply Ascii.eqb_eq in Ha. rewrite Ha. reflexivity.
Qed.

(** X3.  The card gets the class ["mnc"] exactly when the type matches ["MNC"]
    without regard to case, and such a card always shows a cell computed
    with the MNC profile.  A type that matches ["LFP"] never gets the
    class; a type that matches neither is computed with the MNC profile and
    yet shown without the class. *)
Theorem css_class_and_profile (cell_type : string) :
  (css_class cell_type = "mnc" <-> eq_nocase cell_type "MNC" = true) /\
  (css_class cell_type = "mnc" ->
   profile cell_type = (lit 36 1, lit 34 1, lit 32 1)) /\
  (eq_nocase cell_type "LFP" = true -> css_class cell_type = "") /\
  (eq_nocase cell_type "LFP" = false ->
   eq_nocase cell_type "MNC" = false ->
   css_class cell_type = "" /\
   profile cell_type = (lit 36 1, lit 34 1, lit 32 1)).
Proof.
  unfold css_class. rewrite upper_is_MNC, profile_nocase.
  destruct (eq_nocase cell_type "MNC") eqn:EM.
  - rewrite (nocase_MNC_not_LFP _ EM).
    repeat split; intros; try reflexivity; discriminate.
  - destruct (eq_nocase cell_type "LFP");
      repeat split; intros; try reflexivity; discriminate.
Qed.

End CardStyle.

(** ** Signs through the capacity *)

Section CapacitySign.

Lemma has_sign_not_nan (s : bool) (x : float) :
  has_sign s x -> is_nan x = false.
Proof. destruct x; cbn; intros; (reflexivity || contradiction). Qed.

Lemma fmul_sign (m : positive) (e : Z) (c : float) (s : bool) :
  has_sign s c -> has_sign s (fmul (S754_finite false m e) c).
Proof.
  destruct c as [sc|sc| |sc m' e']; cbn; try (intros; assumption).
  intros <-. apply binary_round_aux_sign. lia.
Qed.

Lemma py_round_sign (x : float) (d : positive) (s : bool) :
  has_sign s x -> has_sign s (py_round x d).
Proof.
  destruct x as [sx|sx| |sx m e]; cbn [py_round]; try (intros; assumption).
  cbn [has_sign]. intros <-.
  destruct (scaled_digits m e d); try reflexivity.
  apply of_decimal_sign.
Qed.

Lemma positive_has_sign (c : float) : flt zero c = true -> has_sign false c.
Proof. destruct c as [s|[]| |[] m e]; try discriminate; reflexivity. Qed.

(** X5.  The capacity is a NaN only for a NaN current; for any other current it
    is a number of the same sign as the current, so that a positive
    current never gives a negative capacity. *)
Theorem capacity_keeps_sign (cell_type : string) (c : float) (g : rng) :
  exists p g',
    calculate_cell_parameters cell_type c g = inr (p, g') /\
    is_nan (capacity p) = is_nan c /\
    (forall s, has_sign s c -> has_sign s (capacity p)) /\
    (fle zero c = true -> fle zero (capacity p) = true).
Proof.
  rewrite calculate_cell_parameters_run.
  eexists _, _. split; [reflexivity|].
  unfold bag_of. cbn [capacity].
  destruct (nominal_positive cell_type) as (m & e & ->).
  assert (Hs : forall s, has_sign s c ->
                         has_sign s (py_round (fmul (S754_finite false m e) c)
                                              2)).
  { intros s Hc. apply py_round_sign, fmul_sign. exact Hc. }
  split; [|split; [exact Hs|]].
  - destruct c as [s|s| |s m' e'];
      try (rewrite (has_sign_not_nan s); [reflexivity | apply Hs; reflexivity]).
    reflexivity.
  - intros Hc.
    assert (Hc' : has_sign false c \/ exists s, c = S754_zero s).
    { destruct c as [s|[]| |[] m' e']; try discriminate; cbn; eauto. }
    destruct Hc' as [Hc' | [s ->]].
    + specialize (Hs false Hc').
      destruct (py_round _ _) as [s'|s'| |s' m' e']; cbn in Hs;
        try contradiction; subst; reflexivity.
    + reflexivity.
Qed.

End CapacitySign.

(** ** The analysis as a whole *)

Section Analysis.

Local Open Scope string_scope.

Lemma voltage_bag_of (cell_type : string) (c u : float) :
  voltage (bag_of cell_type c u) =
  if eq_nocase cell_type "LFP" then lit 32 1 else lit 36 1.
Proof.
  unfold bag_of. cbn [voltage]. rewrite profile_nocase.
  destruct (eq_nocase cell_type "LFP"); reflexivity.
Qed.

Lemma max_step_32_32 : max_step (lit 32 1) (lit 32 1) = lit 32 1.
Proof. vm_compute. reflexivity. Qed.

Lemma max_step_32_36 : max_step (lit 32 1) (lit 36 1) = lit 36 1.
Proof. vm_compute. reflexivity. Qed.

Lemma max_step_36_32 : max_step (lit 36 1) (lit 32 1) = lit 36 1.
Proof. vm_compute. reflexivity. Qed.

Lemma max_step_36_36 : max_step (lit 36 1) (lit 36 1) = lit 36 1.
Proof. vm_compute. reflexivity. Qed.

Lemma peak_from_36 (d : nat -> float) (cells_data : list cell) :
  forall k,
    fold_left max_step
      (map (fun r => voltage (bag r)) (results_from d k cells_data))
      (lit 36 1) = lit 36 1.
Proof.
  induction cells_data as [|c rest IH]; intros k;
    cbn [results_from map fold_left bag]; [reflexivity|].
  rewrite voltage_bag_of.
  destruct (eq_nocase (cell_type c) "LFP");
    rewrite ?max_step_36_32, ?max_step_36_36; apply IH.
Qed.

Lemma peak_from_32 (d : nat -> float) (cells_data : list cell) :
  forall k,
    fold_left max_step
      (map (fun r => voltage (bag r)) (results_from d k cells_data))
      (lit 32 1) = if all_lfp cells_data then lit 32 1 else lit 36 1.
Proof.
  induction cells_data as [|c rest IH]; intros k;
    cbn [results_from map fold_left bag all_lfp forallb]; [reflexivity|].
  rewrite voltage_bag_of.
  destruct (eq_nocase (cell_type c) "LFP"); cbn [andb].
  - rewrite max_step_32_32. apply IH.
  - rewrite max_step_32_36. apply peak_from_36.
Qed.

(** X1.  The analysis raises exactly on an empty configuration.  On any other
    it returns the results of the loop together with their summary, draws
    once per cell, counts the cells, and reports as peak voltage 3.2 when
    every cell matches LFP and 3.6 as soon as one cell does not. *)
Theorem analyze_outcome (cells_data : list cell) (g : rng) :
  (cells_data = [] -> analyze cells_data g = inl ZeroDivisionError) /\
  (cells_data <> [] ->
   exists results s g',
     analyze cells_data g = inr ((results, s), g') /\
     compute_results cells_data g = inr (results, g') /\
     aggregate results = inr s /\
     used g' = (used g + List.length cells_data)%nat /\
     cell_count s = List.length cells_data /\
     peak_voltage s = if all_lfp cells_data then lit 32 1 else lit 36 1).
Proof.
  split.
  - intros ->. reflexivity.
  - intros Hne. destruct cells_data as [|c rest]; [congruence|].
    unfold analyze, bind, compute_results. rewrite for_cells_run.
    cbn [app results_from]. unfold lift at 1. rewrite aggregate_run.
    unfold ret. eexists _, _, _. split; [reflexivity|].
    split; [reflexivity|]. split; [apply aggregate_run|].
    split; [reflexivity|].
    cbn [cell_count peak_voltage List.length bag].
    split; [rewrite results_from_length; reflexivity|].
    rewrite voltage_bag_of. cbn [all_lfp forallb].
    destruct (eq_nocase (cell_type c) "LFP"); cbn [andb].
    + apply peak_from_32.
    + apply peak_from_36.
Qed.

End Analysis.

(** ** The analysis of a single cell *)

Section SingleCell.

Local Open Scope string_scope.

Lemma same_float_eq (x y : float) : same_float x y = true -> x = y.
Proof.
  destruct x as [a|a| |a m e], y as [b|b| |b n f]; cbn; try discriminate;
    intros H; try reflexivity.
  - apply Bool.eqb_prop in H. congruence.
  - apply Bool.eqb_prop in H. congruence.
  - apply andb_prop in H as [H He]. apply andb_prop in H as [Hs Hm].
    apply Bool.eqb_prop in Hs. apply Pos.eqb_eq in Hm. apply Z.eqb_eq in He.
    congruence.
Qed.

(** Adding a number that is not negative to the start value 0 of [sum]
    returns it unchanged. *)
Lemma fadd_zero_l (x : float) : has_sign false x -> fadd zero x = x.
Proof. destruct x as [s|s| |s m e]; cbn; intros; subst; reflexivity. Qed.

Lemma single_average_decimals :
  forallb (fun i =>
             same_float
               (single_average (of_decimal false (Pos.of_nat (250 + i)) 1))
               (of_decimal false (Pos.of_nat (250 + i)) 1))
          (seq 0 151) = true.
Proof. vm_compute. reflexivity. Qed.

Lemma single_average_decimal (k : positive) :
  250 <= Zpos k <= 400 ->
  single_average (of_decimal false k 1) = of_decimal false k 1.
Proof.
  intros Hk. apply same_float_eq.
  pose proof (proj1 (forallb_forall _ _) single_average_decimals
                (Z.to_nat (Zpos k - 250))) as H.
  cbv beta in H.
  replace (Pos.of_nat (250 + Z.to_nat (Zpos k - 250))) with k in H by lia.
  apply H. apply in_seq. lia.
Qed.

(** X4.  With a single cell of positive current and a draw within the contract,
    the summary repeats the cell: the total capacity is its capacity, the
    average temperature its temperature, the peak voltage its voltage. *)
Theorem analyze_single_cell (c : cell) (g : rng) :
  flt zero (cell_current c) = true ->
  in_uniform_range (draws g (used g)) = true ->
  exists r s g',
    analyze [c] g = inr (([r], s), g') /\
    id r = cell_id c /\
    total_capacity s = capacity (bag r) /\
    avg_temperature s = temperature (bag r) /\
    peak_voltage s = voltage (bag r) /\
    cell_count s = 1%nat.
Proof.
  intros Hc Hu.
  unfold analyze, bind, compute_results. rewrite for_cells_run.
  cbn [app results_from]. unfold lift at 1. rewrite aggregate_run.
  unfold ret. eexists _, _, _. split; [reflexivity|].
  cbn [id total_capacity avg_temperature peak_voltage cell_count bag
          List.length map fold_left].
  split; [reflexivity|]. split; [|split; [|split; reflexivity]].
  - unfold py_sum. cbn [fold_left]. apply fadd_zero_l.
    unfold bag_of. cbn [capacity].
    destruct (nominal_positive (cell_type c)) as (m & e & ->).
    apply py_round_sign, fmul_sign, positive_has_sign. exact Hc.
  - unfold bag_of. cbn [temperature].
    destruct (py_round_uniform _ Hu) as (k & Hk & ->).
    apply (single_average_decimal k Hk).
Qed.

Lemma analyze_single_cell_witness :
  flt zero (cell_current example_cell) = true /\
  in_uniform_range (draws (constant_rng (lit 3127 2))
                          (used (constant_rng (lit 3127 2)))) = true /\
  exists r s g',
    analyze [example_cell] (constant_rng (lit 3127 2)) =
    inr (([r], s), g') /\
    id r = cell_id example_cell /\
    total_capacity s = capacity (bag r) /\
    avg_temperature s = temperature (bag r) /\
    peak_voltage s = voltage (bag r) /\
    cell_count s = 1%nat.
Proof.
  split; [reflexivity|]. split; [reflexivity|].
  apply (analyze_single_cell example_cell (constant_rng (lit 3127 2)));
    reflexivity.
Defined.

End SingleCell.

(** ** The ids of the configured cells *)

Section Sidebar.

Variable selectbox : nat -> string.
Variable number_input : nat -> float.

Lemma sidebar_loop_run (indices : list nat) :
  forall cells_data,
    sidebar_loop selectbox number_input indices cells_data =
    cells_data ++
    map (fun i => {| cell_id := Z.of_nat i + 1;
                     cell_type := selectbox i;
                     cell_current := number_input i |}) indices.
Proof.
  induction indices as [|i rest IH]; intros cells_data;
    cbn [sidebar_loop map].
  - rewrite app_nil_r. reflexivity.
  - rewrite IH, <- app_assoc. reflexivity.
Qed.

Lemma results_from_ids (d : nat -> float) (cells_data : list cell) :
  forall k, map id (results_from d k cells_data) = map cell_id cells_data.
Proof.
  induction cells_data as [|c rest IH]; intros k; cbn [results_from map id];
    [|rewrite IH]; reflexivity.
Qed.

Lemma results_from_types (d : nat -> float) (cells_data : list cell) :
  forall k, map type (results_from d k cells_data) = map cell_type cells_data.
Proof.
  induction cells_data as [|c rest IH]; intros k;
    cbn [results_from map type]; [|rewrite IH]; reflexivity.
Qed.

Lemma ids_from_nodup (n : nat) :
  forall k, NoDup (map (fun i => Z.of_nat i + 1) (seq k n)).
Proof.
  induction n as [|n IH]; intros k; cbn [seq map]; constructor.
  - intros Hin. apply in_map_iff in Hin as (j & Hj & Hin).
    apply in_seq in Hin. lia.
  - apply IH.
Qed.

(** X6.  For every number of cells and whatever the widgets return, the results
    of the loop carry the ids 1, 2, ..., [num_cells] in this order, each id
    once, and the types selected in the sidebar. *)
Theorem results_ids_are_sequential (num_cells : nat) (g : rng) :
  exists results g',
    compute_results (build_cells_data selectbox number_input num_cells) g =
    inr (results, g') /\
    List.length results = num_cells /\
    map id results = map (fun i => Z.of_nat i + 1) (seq 0 num_cells) /\
    NoDup (map id results) /\
    map type results = map selectbox (seq 0 num_cells).
Proof.
  unfold compute_results, build_cells_data.
  rewrite for_cells_run, sidebar_loop_run. cbn [app].
  eexists _, _. split; [reflexivity|].
  rewrite results_from_length, results_from_ids, results_from_types.
  rewrite !map_map. cbn [cell_id cell_type].
  rewrite length_map, length_seq.
  repeat split. apply ids_from_nodup.
Qed.

End Sidebar.

(** ** The data table *)

Section DataTable.

Lemma table_loop_run (results : list result) :
  forall df_data,
    table_loop results df_data =
    df_data ++
    map (fun r => {| col_cell_id := id r;
                     col_type := type r;
                     col_voltage := voltage (bag r);
                     col_current := current (bag r);
                     col_temperature := temperature (bag r);
                     col_capacity := capacity (bag r);
                     col_min_voltage := min_voltage (bag r);
                     col_max_voltage := max_voltage (bag r) |}) results.
Proof.
  induction results as [|r rest IH]; intros df_data; cbn [table_loop map].
  - rewrite app_nil_r. reflexivity.
  - rewrite IH, <- app_assoc. reflexivity.
Qed.

Lemma rows_of_results_from (d : nat -> float) (cells_data : list cell) :
  forall k,
    map result_of_row (build_df_data (results_from d k cells_data)) =
    results_from d k cells_data.
Proof.
  unfold build_df_data. intros k. rewrite table_loop_run. cbn [app].
  rewrite map_map. revert k.
  induction cells_data as [|c rest IH]; intros k; cbn [results_from map];
    [reflexivity|].
  rewrite IH. reflexivity.
Qed.

(** X7.  The table has one row per result of the loop, in the same order, and
    loses nothing: every result is rebuilt from its row, the range
    percentage that is not a column being determined by the type. *)
Theorem table_keeps_results (cells_data : list cell) (g : rng) :
  exists results g',
    compute_results cells_data g = inr (results, g') /\
    List.length (build_df_data results) = List.length cells_data /\
    map col_cell_id (build_df_data results) = map cell_id cells_data /\
    map result_of_row (build_df_data results) = results.
Proof.
  unfold compute_results. rewrite for_cells_run. cbn [app].
  eexists _, _. split; [reflexivity|].
  split; [|split; [|apply rows_of_results_from]].
  - unfold build_df_data. rewrite table_loop_run. cbn [app].
    rewrite length_map. apply results_from_length.
  - unfold build_df_data. rewrite table_loop_run. cbn [app].
    rewrite map_map. cbn [col_cell_id]. apply results_from_ids.
Qed.

End DataTable.

(** ** What the draws can change in the analysis *)

Section Draws.

Lemma analyze_run (c : cell) (rest : list cell) (g : rng) :
  exists s,
    aggregate (results_from (draws g) (used g) (c :: rest)) = inr s /\
    analyze (c :: rest) g =
    inr ((results_from (draws g) (used g) (c :: rest), s),
         {| draws := draws g;
            used := (used g + List.length (c :: rest))%nat |}).
Proof.
  unfold analyze, bind, compute_results. rewrite for_cells_run.
  cbn [app results_from]. unfold lift at 1. rewrite aggregate_run.
  unfold ret. eexists. split; reflexivity.
Qed.

Lemma results_from_capacities (d1 d2 : nat -> float) (cells_data : list cell) :
  forall k1 k2,
    map (fun r => capacity (bag r)) (results_from d1 k1 cells_data) =
    map (fun r => capacity (bag r)) (results_from d2 k2 cells_data).
Proof.
  induction cells_data as [|c rest IH]; intros k1 k2;
    cbn [results_from map bag]; [reflexivity|].
  rewrite (IH (S k1) (S k2)). reflexivity.
Qed.

Lemma results_from_voltages (d1 d2 : nat -> float) (cells_data : list cell) :
  forall k1 k2,
    map (fun r => voltage (bag r)) (results_from d1 k1 cells_data) =
    map (fun r => voltage (bag r)) (results_from d2 k2 cells_data).
Proof.
  induction cells_data as [|c rest IH]; intros k1 k2;
    cbn [results_from map bag]; [reflexivity|].
  rewrite (IH (S k1) (S k2)). reflexivity.
Qed.

Lemma results_from_percents (d1 d2 : nat -> float) (cells_data : list cell) :
  forall k1 k2,
    map (fun r => voltage_range_percent (bag r))
        (results_from d1 k1 cells_data) =
    map (fun r => voltage_range_percent (bag r))
        (results_from d2 k2 cells_data).
Proof.
  induction cells_data as [|c rest IH]; intros k1 k2;
    cbn [results_from map bag]; [reflexivity|].
  rewrite (IH (S k1) (S k2)). reflexivity.
Qed.

(** X8.  Two analyses of the same cells agree, whatever the generator returns
    in each, on the total capacity, the peak voltage and the cell count, and
    on the capacity and range percentage of every cell: the draws reach the
    temperatures and their average only. *)
Theorem analysis_independent_of_draws (cells_data : list cell) (g1 g2 : rng) :
  cells_data <> [] ->
  exists r1 s1 g1' r2 s2 g2',
    analyze cells_data g1 = inr ((r1, s1), g1') /\
    analyze cells_data g2 = inr ((r2, s2), g2') /\
    total_capacity s1 = total_capacity s2 /\
    peak_voltage s1 = peak_voltage s2 /\
    cell_count s1 = cell_count s2 /\
    map (fun r => capacity (bag r)) r1 = map (fun r => capacity (bag r)) r2 /\
    map (fun r => voltage_range_percent (bag r)) r1 =
    map (fun r => voltage_range_percent (bag r)) r2.
Proof.
  intros Hne. destruct cells_data as [|c rest]; [congruence|].
  destruct (analyze_run c rest g1) as (s1 & Hs1 & ->).
  destruct (analyze_run c rest g2) as (s2 & Hs2 & ->).
  eexists _, _, _, _, _, _. split; [reflexivity|]. split; [reflexivity|].
  pose proof (results_from_capacities (draws g1) (draws g2) rest
                (S (used g1)) (S (used g2))) as Hcap.
  pose proof (results_from_voltages (draws g1) (draws g2) rest
                (S (used g1)) (S (used g2))) as Hvol.
  pose proof (results_from_percents (draws g1) (draws g2) rest
                (S (used g1)) (S (used g2))) as Hpct.
  cbn [results_from] in Hs1, Hs2.
  rewrite aggregate_run in Hs1, Hs2.
  injection Hs1 as <-. injection Hs2 as <-.
  cbn [total_capacity peak_voltage cell_count results_from map bag
         List.length].
  rewrite Hcap, Hvol, Hpct, !results_from_length.
  repeat split.
Qed.

Lemma analysis_independent_of_draws_witness :
  [example_cell] <> [] /\
  exists r1 s1 g1' r2 s2 g2',
    analyze [example_cell] (constant_rng (lit 300 1)) = inr ((r1, s1), g1') /\
    analyze [example_cell] (constant_rng (lit 280 1)) = inr ((r2, s2), g2') /\
    total_capacity s1 = total_capacity s2 /\
    peak_voltage s1 = peak_voltage s2 /\
    cell_count s1 = cell_count s2 /\
    map (fun r => capacity (bag r)) r1 = map (fun r => capacity (bag r)) r2 /\
    map (fun r => voltage_range_percent (bag r)) r1 =
    map (fun r => voltage_range_percent (bag r)) r2.
Proof.
  assert (Hne : [example_cell] <> []) by discriminate.
  split; [exact Hne|].
  apply (analysis_independent_of_draws [example_cell]
           (constant_rng (lit 300 1)) (constant_rng (lit 280 1)) Hne).
Defined.

End Draws.

(** ** The analysis of a configured sidebar *)

Section Configured.

Variable selectbox : nat -> string.
Variable number_input : nat -> float.

(** X9.  With at least one cell configured, as the slider guarantees, the
    analysis returns: the division by the number of results cannot raise,
    and the summary counts [num_cells] cells. *)
Theorem configured_analysis_returns (num_cells : nat) (g : rng) :
  (1 <= num_cells)%nat ->
  exists results s g',
    analyze (build_cells_data selectbox number_input num_cells) g =
    inr ((results, s), g') /\
    List.length results = num_cells /\
    cell_count s = num_cells /\
    used g' = (used g + num_cells)%nat.
Proof.
  intros Hn. unfold build_cells_data. rewrite sidebar_loop_run. cbn [app].
  destruct num_cells as [|n]; [lia|]. cbn [seq map].
  match goal with
  | |- context [analyze (?c :: ?rest) g] =>
      destruct (analyze_run c rest g) as (s & Hs & ->);
      set (c0 := c) in *; set (rest0 := rest) in *
  end.
  assert (Hlen : List.length (c0 :: rest0) = S n).
  { subst c0 rest0. cbn [List.length]. rewrite length_map, length_seq.
    reflexivity. }
  eexists _, _, _. split; [reflexivity|].
  rewrite results_from_length. split; [exact Hlen|].
  cbn [used]. split; [|rewrite Hlen; reflexivity].
  cbn [results_from] in Hs. rewrite aggregate_run in Hs.
  injection Hs as <-. cbn [cell_count List.length].
  rewrite results_from_length. exact Hlen.
Qed.

End Configured.

Lemma configured_analysis_returns_witness :
  (1 <= 3)%nat /\
  exists results s g',
    analyze (build_cells_data (fun _ => "LFP"%string) (fun _ => lit 20 1) 3)
            (constant_rng (lit 300 1)) =
    inr ((results, s), g') /\
    List.length results = 3%nat /\
    cell_count s = 3%nat /\
    used g' = (used (constant_rng (lit 300 1)) + 3)%nat.
Proof.
  split; [lia|].
  apply (configured_analysis_returns (fun _ => "LFP"%string)
           (fun _ => lit 20 1) 3 (constant_rng (lit 300 1))).
  lia.
Defined.

(** ** Invariants of the results of the loop *)

Section LoopInvariants.

(** X10.  When every draw respects the contract of [random.uniform(25, 40)],
    every result of the loop has a temperature within [25.0, 40.0] that is
    a float nearest to a number with one decimal. *)
Theorem results_temperatures_in_range (cells_data : list cell) (g : rng) :
  (forall k, in_uniform_range (draws g k) = true) ->
  exists results g',
    compute_results cells_data g = inr (results, g') /\
    forall r, In r results ->
              fle (lit 250 1) (temperature (bag r)) = true /\
              fle (temperature (bag r)) (lit 400 1) = true /\
              exists n, 250 <= Zpos n <= 400 /\
                        temperature (bag r) = of_decimal false n 1.
Proof.
  intros Hdraws. unfold compute_results. rewrite for_cells_run. cbn [app].
  eexists _, _. split; [reflexivity|].
  generalize (used g).
  induction cells_data as [|c rest IH]; intros k r Hr;
    cbn [results_from] in Hr; [contradiction|].
  destruct Hr as [<- | Hr]; [|exact (IH (S k) r Hr)].
  cbn [bag]. unfold bag_of. cbn [temperature].
  destruct (py_round_uniform _ (Hdraws k)) as (n & Hn & ->).
  pose proof (decimal_in_range (Zpos n) Hn) as Hok.
  cbn [Z.to_pos] in Hok. unfold temperature_ok in Hok.
  apply andb_prop in Hok as [Hok H40]. apply andb_prop in Hok as [_ H25].
  split; [exact H25|]. split; [exact H40|].
  exists n. split; [exact Hn | reflexivity].
Qed.

Lemma results_temperatures_in_range_witness :
  (forall k, in_uniform_range (draws (constant_rng (lit 3127 2)) k) = true) /\
  exists results g',
    compute_results [example_cell; example_cell] (constant_rng (lit 3127 2)) =
    inr (results, g') /\
    forall r, In r results ->
              fle (lit 250 1) (temperature (bag r)) = true /\
              fle (temperature (bag r)) (lit 400 1) = true /\
              exists n, 250 <= Zpos n <= 400 /\
                        temperature (bag r) = of_decimal false n 1.
Proof.
  assert (H : forall k,
             in_uniform_range (draws (constant_rng (lit 3127 2)) k) = true)
    by (intros k; reflexivity).
  split; [exact H|].
  apply (results_temperatures_in_range [example_cell; example_cell]
           (constant_rng (lit 3127 2)) H).
Defined.

Lemma binary_round_sign (s : bool) (m : positive) (e : Z) :
  has_sign s (binary_round prec emax s m e).
Proof.
  unfold binary_round. destruct (shl_align _ _ _) as [mz ez].
  apply binary_round_aux_sign. lia.
Qed.

(** The sum of two numbers that are not negative is a number that is not
    negative. *)
Lemma fadd_sign_false (x y : float) :
  has_sign false x -> has_sign false y -> has_sign false (fadd x y).
Proof.
  destruct x as [sx|sx| |sx mx ex], y as [sy|sy| |sy my ey]; cbn [has_sign];
    try contradiction; intros -> ->; try reflexivity.
  unfold fadd, SFadd. cbn [cond_Zopp Z.add binary_normalize].
  apply binary_round_sign.
Qed.

Lemma py_sum_sign_false (xs : list float) :
  Forall (has_sign false) xs -> has_sign false (py_sum xs).
Proof.
  unfold py_sum. assert (H0 : has_sign false zero) by reflexivity.
  revert H0. generalize zero.
  induction xs as [|x rest IH]; intros acc Hacc Hxs; cbn [fold_left].
  - exact Hacc.
  - inversion Hxs; subst. apply IH; [apply fadd_sign_false|]; assumption.
Qed.

Lemma has_sign_false_nonneg (x : float) :
  has_sign false x -> fle zero x = true.
Proof.
  destruct x as [s|s| |s m e]; cbn [has_sign]; try contradiction;
    intros ->; reflexivity.
Qed.

(** X11.  When every cell draws a positive current, every capacity and the total
    capacity are numbers that are not negative: neither a NaN nor below
    zero, even where a sum overflows to infinity. *)
Theorem total_capacity_not_negative (cells_data : list cell) (g : rng) :
  cells_data <> [] ->
  Forall (fun c => flt zero (cell_current c) = true) cells_data ->
  exists results s g',
    analyze cells_data g = inr ((results, s), g') /\
    (forall r, In r results -> fle zero (capacity (bag r)) = true) /\
    is_nan (total_capacity s) = false /\
    fle zero (total_capacity s) = true.
Proof.
  intros Hne Hpos. destruct cells_data as [|c rest]; [congruence|].
  destruct (analyze_run c rest g) as (s & Hs & ->).
  eexists _, _, _. split; [reflexivity|].
  assert (Hcaps : Forall (has_sign false)
                         (map (fun r => capacity (bag r))
                              (results_from (draws g) (used g) (c :: rest)))).
  { clear Hs Hne. revert Hpos. generalize (used g). generalize (c :: rest).
    intros cells. induction cells as [|c0 rest0 IH]; intros k Hpos;
      cbn [results_from map bag]; constructor.
    - inversion Hpos; subst. unfold bag_of. cbn [capacity].
      destruct (nominal_positive (cell_type c0)) as (m & e & ->).
      apply py_round_sign, fmul_sign, positive_has_sign. assumption.
    - inversion Hpos; subst. apply IH. assumption. }
  split.
  - intros r Hr. apply has_sign_false_nonneg.
    rewrite Forall_forall in Hcaps. apply Hcaps.
    apply (in_map (fun r => capacity (bag r))). exact Hr.
  - assert (Htot : has_sign false (total_capacity s)).
    { cbn [results_from] in Hs, Hcaps. rewrite aggregate_run in Hs.
      injection Hs as <-. cbn [total_capacity].
      apply py_sum_sign_false. exact Hcaps. }
    split; [apply (has_sign_not_nan false) | apply has_sign_false_nonneg];
      exact Htot.
Qed.

Lemma total_capacity_not_negative_witness :
  [example_cell] <> [] /\
  Forall (fun c => flt zero (cell_current c) = true) [example_cell] /\
  exists results s g',
    analyze [example_cell] (constant_rng (lit 300 1)) =
    inr ((results, s), g') /\
    (forall r, In r results -> fle zero (capacity (bag r)) = true) /\
    is_nan (total_capacity s) = false /\
    fle zero (total_capacity s) = true.
Proof.
  assert (Hne : [example_cell] <> []) by discriminate.
  assert (Hpos : Forall (fun c => flt zero (cell_current c) = true)
                        [example_cell])
    by (repeat constructor).
  split; [exact Hne|]. split; [exact Hpos|].
  apply (total_capacity_not_negative [example_cell]
           (constant_rng (lit 300 1)) Hne Hpos).
Defined.

End LoopInvariants.
